(** * react-native-anchor-carousel: geometry, interpolation and snapping

    A shallow embedding of [src/carousel.js].  The component is a function
    of its props; everything it computes is arithmetic on JavaScript
    numbers plus three mutable reference cells and one timer.

    - JavaScript numbers are abstracted by the class [Number].  The same
      code is instantiated twice: at [Q], the exact arithmetic in which the
      geometric laws are stated and proved, and at [float], the kernel's
      IEEE 754 binary64, which is what the engine evaluates and which is
      used here to run the code on concrete inputs.
    - Item indices and [dataLength] are integers ([Z]).
    - The reference cells, the React state cell, the timer queue and the
      observable effects (prop callbacks, the list's [scrollToOffset]) are
      fields of one explicit [State]; handlers are state transformers. *)

From Stdlib Require Import ZArith QArith Qabs List Bool Lia Lqa Floats.
Import ListNotations.

Set Implicit Arguments.
Set Warnings "-inexact-float".

(** ** JavaScript numbers *)

Declare Scope num_scope.
Delimit Scope num_scope with num.

Class Number (N : Type) : Type := {
  of_Z : Z -> N;
  num_add : N -> N -> N;
  num_sub : N -> N -> N;
  num_mul : N -> N -> N;
  num_div : N -> N -> N;
  num_abs : N -> N;
  num_ltb : N -> N -> bool;
  num_leb : N -> N -> bool
}.

Infix "+" := num_add : num_scope.
Infix "-" := num_sub : num_scope.
Infix "*" := num_mul : num_scope.
Infix "/" := num_div : num_scope.
Infix "<?" := num_ltb : num_scope.
Infix "<=?" := num_leb : num_scope.

Definition Qltb (x y : Q) : bool := negb (Qle_bool y x).

#[export] Instance Number_Q : Number Q := {
  of_Z := inject_Z;
  num_add := Qplus;
  num_sub := Qminus;
  num_mul := Qmult;
  num_div := Qdiv;
  num_abs := Qabs;
  num_ltb := Qltb;
  num_leb := Qle_bool
}.

(** The integer [z] as a binary64 value, rounded to nearest even. *)
Definition float_of_Z (z : Z) : float :=
  SF2Prim (binary_normalize prec emax z 0 false).

#[export] Instance Number_float : Number float := {
  of_Z := float_of_Z;
  num_add := PrimFloat.add;
  num_sub := PrimFloat.sub;
  num_mul := PrimFloat.mul;
  num_div := PrimFloat.div;
  num_abs := PrimFloat.abs;
  num_ltb := PrimFloat.ltb;
  num_leb := PrimFloat.leb
}.

(** ** Props, styles and the rendered item *)

(** The props of [Carousel] that the code reads.  A callback prop is
    recorded by whether it is truthy: the code only ever tests it and
    calls it. *)
Record Props (N T : Type) : Type := {
  data : option (list T);
  containerWidth : N;
  itemWidth : N;
  separatorWidth : N;
  minScrollDistance : N;
  inActiveScale : N;
  inActiveOpacity : N;
  inverted : bool;
  initialIndex : Z;
  onScrollEnd : bool;
  onScrollBeginDrag : bool;
  onScrollEndDrag : bool
}.

Definition with_inActiveOpacity {N T} (o : N) (p : Props N T) : Props N T :=
  {| data := data p;
     containerWidth := containerWidth p;
     itemWidth := itemWidth p;
     separatorWidth := separatorWidth p;
     minScrollDistance := minScrollDistance p;
     inActiveScale := inActiveScale p;
     inActiveOpacity := o;
     inverted := inverted p;
     initialIndex := initialIndex p;
     onScrollEnd := onScrollEnd p;
     onScrollBeginDrag := onScrollBeginDrag p;
     onScrollEndDrag := onScrollEndDrag p |}.

(** The object returned by [getItemMarginStyle]: exactly one key. *)
Inductive MarginStyle (N : Type) : Type :=
| marginLeft (m : N)
| marginRight (m : N)
| marginHorizontal (m : N).

Inductive Extrapolate : Type := CLAMP.

(** The props [renderItemContainer] hands to [Item]. *)
Record ItemProps (N : Type) : Type := {
  item_scroll : N;
  startPoint : N;
  midPoint : N;
  endPoint : N;
  item_inActiveScale : N;
  item_itemWidth : N;
  itemMarginStyle : MarginStyle N
}.

(** The style of the view [Item] returns: [{ width }], the margin style
    and the animated style [{ transform: [{ scale }], opacity }]. *)
Record ItemStyle (N : Type) : Type := {
  width : N;
  margin : MarginStyle N;
  scale : N;
  opacity : N
}.

Section Geometry.
Context {N : Type} `{Number N} {T : Type}.
Local Open Scope num_scope.

(** Modelled from the spec: [interpolate] of react-native-reanimated is
    imported by the source and not part of it.  Piecewise-linear over the
    triple of inputs onto the triple of outputs, and with [CLAMP] the
    value outside the input range is the output at the nearer end.  The
    spec describes increasing inputs; where two of them coincide its
    sentences disagree, and the clamp is taken first here.  Every theorem
    about the value assumes [start < mid < end]. *)
Definition interpolate (x : N) (input output : N * N * N)
    (type : Extrapolate) : N :=
  let '(x0, x1, x2) := input in
  let '(y0, y1, y2) := output in
  match type with
  | CLAMP =>
      if x <=? x0 then y0
      else if x2 <=? x then y2
      else if x <=? x1 then y0 + (x - x0) / (x1 - x0) * (y1 - y0)
      else y1 + (x - x1) / (x2 - x1) * (y2 - y1)
  end.

(** The value [Item] stores in its shared value [xOffset]. *)
Definition xOffset (props : ItemProps N) : N :=
  interpolate (item_scroll props)
    (startPoint props, midPoint props, endPoint props)
    (item_inActiveScale props, of_Z 1, item_inActiveScale props)
    CLAMP.

Definition Item (props : ItemProps N) : ItemStyle N :=
  {| width := item_itemWidth props;
     margin := itemMarginStyle props;
     scale := xOffset props;
     opacity := xOffset props |}.

Variable p : Props N T.

Definition halfContainerWidth : N := containerWidth p / of_Z 2.
Definition halfItemWidth : N := itemWidth p / of_Z 2.

Definition getItemTotalMarginBothSide : N :=
  let compensatorOfSeparatorByScaleEffect :=
    (of_Z 1 - inActiveScale p) * itemWidth p in
  separatorWidth p - compensatorOfSeparatorByScaleEffect / of_Z 2.

Definition itemTotalMarginBothSide : N := getItemTotalMarginBothSide.

Definition dataLength : Z :=
  match data p with
  | Some d => Z.of_nat (length d)
  | None => 0
  end.

Definition isLastItem (index : Z) : bool := (index =? dataLength - 1)%Z.
Definition isFirstItem (index : Z) : bool := (index =? 0)%Z.

Definition getItemOffset (index : Z) : N :=
  of_Z index * (itemWidth p + itemTotalMarginBothSide)
  - (halfContainerWidth - halfItemWidth).

Definition getAnimatedOffset (index : Z) : N :=
  if isFirstItem index then halfItemWidth
  else if isLastItem index then containerWidth p - halfItemWidth
  else halfContainerWidth.

Definition getMidPontInterpolate (index : Z) (animatedOffset : N) : N :=
  of_Z index * (itemWidth p + itemTotalMarginBothSide)
  + halfItemWidth - animatedOffset.

Definition getStartPontInterpolate (index : Z) (midPoint : N) : N :=
  if (index =? 1)%Z then of_Z 0
  else if isLastItem index then
    of_Z (dataLength - 2) * (itemWidth p + itemTotalMarginBothSide)
    + halfItemWidth - halfContainerWidth
  else midPoint - itemWidth p - itemTotalMarginBothSide.

Definition getEndPointInterpolate (index : Z) (midPoint : N) : N :=
  if isFirstItem index then
    itemWidth p + itemTotalMarginBothSide + halfItemWidth
    - halfContainerWidth
  else if (index =? dataLength - 2)%Z then
    of_Z (dataLength - 1) * (itemWidth p + itemTotalMarginBothSide)
    + itemWidth p - containerWidth p
  else midPoint + itemWidth p + itemTotalMarginBothSide.

(** The indices at which neither [getStartPontInterpolate] nor
    [getEndPointInterpolate] takes one of its special cases. *)
Definition isInterior (index : Z) : bool :=
  negb (isFirstItem index) && negb (isLastItem index)
  && negb (index =? 1)%Z && negb (index =? dataLength - 2)%Z.

Definition getItemMarginStyle (index : Z) : MarginStyle N :=
  let marginSingleItemSide := itemTotalMarginBothSide / of_Z 2 in
  if isFirstItem index then
    if inverted p then marginLeft (marginSingleItemSide / of_Z 2)
    else marginRight (marginSingleItemSide / of_Z 2)
  else if isLastItem index then
    if inverted p then marginRight (marginSingleItemSide / of_Z 2)
    else marginLeft (marginSingleItemSide / of_Z 2)
  else marginHorizontal marginSingleItemSide.

(** The props of the [Item] that wraps the item at [index] when the
    state cell [scroll] holds [scroll]. *)
Definition itemProps (scroll : N) (index : Z) : ItemProps N :=
  let animatedOffset := getAnimatedOffset index in
  let midPoint := getMidPontInterpolate index animatedOffset in
  let startPoint := getStartPontInterpolate index midPoint in
  let endPoint := getEndPointInterpolate index midPoint in
  let itemMarginStyle := getItemMarginStyle index in
  {| item_scroll := scroll;
     startPoint := startPoint;
     midPoint := midPoint;
     endPoint := endPoint;
     item_inActiveScale := inActiveScale p;
     item_itemWidth := itemWidth p;
     itemMarginStyle := itemMarginStyle |}.

Definition renderItemContainer (scroll : N) (index : Z) : ItemStyle N :=
  Item (itemProps scroll index).

End Geometry.

(** ** The controller: reference cells, timers and effects *)

(** What the component does to the outside world: calls of the callback
    props and the [scrollToOffset] command sent to the list. *)
Inductive Event (N T : Type) : Type :=
| CallOnScrollEnd (item : option T) (index : Z)
| CallOnScrollBeginDrag
| CallOnScrollEndDrag
| ScrollToOffset (offset : N) (animated : bool).

Arguments CallOnScrollBeginDrag {N T}.
Arguments CallOnScrollEndDrag {N T}.
Arguments CallOnScrollEnd {N T} item index.
Arguments ScrollToOffset {N T} offset animated.

(** The closure [scrollToIndex] passes to [setTimeout]; it captures
    [index]. *)
Inductive Timer : Type := ScrollTimer (index : Z).

Record State (N T : Type) : Type := {
  currentIndexRef : Z;
  scrollXRef : N;
  scrollXBeginRef : N;
  scroll : N;
  (** whether [scrollViewRef.current] is set *)
  scrollViewRef : bool;
  (** callbacks queued by [setTimeout], oldest first *)
  timers : list Timer;
  (** effects so far, oldest first *)
  trace : list (Event N T)
}.

Section Controller.
Context {N : Type} `{Number N} {T : Type}.
Local Open Scope num_scope.

Definition set_currentIndexRef (i : Z) (s : State N T) : State N T :=
  {| currentIndexRef := i; scrollXRef := scrollXRef s;
     scrollXBeginRef := scrollXBeginRef s; scroll := scroll s;
     scrollViewRef := scrollViewRef s; timers := timers s;
     trace := trace s |}.

Definition set_scrollXRef (x : N) (s : State N T) : State N T :=
  {| currentIndexRef := currentIndexRef s; scrollXRef := x;
     scrollXBeginRef := scrollXBeginRef s; scroll := scroll s;
     scrollViewRef := scrollViewRef s; timers := timers s;
     trace := trace s |}.

Definition set_scrollXBeginRef (x : N) (s : State N T) : State N T :=
  {| currentIndexRef := currentIndexRef s; scrollXRef := scrollXRef s;
     scrollXBeginRef := x; scroll := scroll s;
     scrollViewRef := scrollViewRef s; timers := timers s;
     trace := trace s |}.

Definition setScroll (x : N) (s : State N T) : State N T :=
  {| currentIndexRef := currentIndexRef s; scrollXRef := scrollXRef s;
     scrollXBeginRef := scrollXBeginRef s; scroll := x;
     scrollViewRef := scrollViewRef s; timers := timers s;
     trace := trace s |}.

Definition set_timers (q : list Timer) (s : State N T) : State N T :=
  {| currentIndexRef := currentIndexRef s; scrollXRef := scrollXRef s;
     scrollXBeginRef := scrollXBeginRef s; scroll := scroll s;
     scrollViewRef := scrollViewRef s; timers := q;
     trace := trace s |}.

Definition setTimeout (t : Timer) (s : State N T) : State N T :=
  set_timers (timers s ++ [t]) s.

Definition emit (e : Event N T) (s : State N T) : State N T :=
  {| currentIndexRef := currentIndexRef s; scrollXRef := scrollXRef s;
     scrollXBeginRef := scrollXBeginRef s; scroll := scroll s;
     scrollViewRef := scrollViewRef s; timers := timers s;
     trace := trace s ++ [e] |}.

(** [cb && cb(...)]: the call happens when the prop is truthy. *)
Definition call (cb : bool) (e : Event N T) (s : State N T) : State N T :=
  if cb then emit e s else s.

Variable p : Props N T.

(** [data[index]] for an integer [index]; [None] is [undefined]. *)
Definition data_at (index : Z) : option T :=
  match data p with
  | Some d => if (index <? 0)%Z then None else nth_error d (Z.to_nat index)
  | None => None
  end.

(** The state after the first render. *)
Definition mount : State N T :=
  {| currentIndexRef := initialIndex p; scrollXRef := of_Z 0;
     scrollXBeginRef := of_Z 0; scroll := of_Z 0;
     scrollViewRef := true; timers := []; trace := [] |}.

Definition scrollToIndex (index : Z) (s : State N T) : State N T :=
  if ((index <? 0) || (index >=? dataLength p))%Z then s
  else
    let s := call (onScrollEnd p) (CallOnScrollEnd (data_at index) index) s in
    let s := set_currentIndexRef index s in
    setTimeout (ScrollTimer index) s.

(** The command the queued closure sends to the list. *)
Definition scrollCommand (t : Timer) : Event N T :=
  match t with
  | ScrollTimer index => ScrollToOffset (getItemOffset p index) true
  end.

(** Running one queued callback:
    [scrollViewRef.current && scrollViewRef.current.scrollToOffset(...)]. *)
Definition runTimer (t : Timer) (s : State N T) : State N T :=
  call (scrollViewRef s) (scrollCommand t) s.

(** One turn of the timer phase: every callback queued so far runs, in
    order. *)
Definition tick (s : State N T) : State N T :=
  fold_left (fun s t => runTimer t s) (timers s) (set_timers [] s).

(** The list's [onScroll] handler. *)
Definition handleOnScroll (x : N) (s : State N T) : State N T :=
  set_scrollXRef x (setScroll x s).

Definition handleOnScrollBeginDrag (s : State N T) : State N T :=
  let s := call (onScrollBeginDrag p) CallOnScrollBeginDrag s in
  set_scrollXBeginRef (scrollXRef s) s.

Definition handleOnScrollEndDrag (s : State N T) : State N T :=
  let s := call (onScrollEndDrag p) CallOnScrollEndDrag s in
  if scrollXRef s <? of_Z 0 then s
  else
    let scrollDistance := scrollXRef s - scrollXBeginRef s in
    let s := set_scrollXBeginRef (of_Z 0) s in
    if num_abs scrollDistance <? minScrollDistance p then
      scrollToIndex (currentIndexRef s) s
    else if scrollDistance <? of_Z 0 then
      scrollToIndex (currentIndexRef s - 1)%Z s
    else
      scrollToIndex (currentIndexRef s + 1)%Z s.

End Controller.

(** ** Concrete carousels *)

(** A carousel over [d] with the given widths and scale, every other prop
    at its default. *)
Definition carousel {N : Type} `{Number N} {T : Type}
    (d : list T) (cw iw sw scale_ : N) : Props N T :=
  {| data := Some d;
     containerWidth := cw;
     itemWidth := iw;
     separatorWidth := sw;
     minScrollDistance := of_Z 5;
     inActiveScale := scale_;
     inActiveOpacity := scale_;
     inverted := false;
     initialIndex := 0;
     onScrollEnd := true;
     onScrollBeginDrag := true;
     onScrollEndDrag := true |}.

Definition five : list nat := [10; 11; 12; 13; 14]%nat.
Definition seven : list nat := [10; 11; 12; 13; 14; 15; 16]%nat.

(** The geometry example: container 300, item 270, separator 10, scale
    0.8, in exact arithmetic and in binary64. *)
Definition exampleQ : Props Q nat := carousel five 300 270 10 0.8.

Definition example64 : Props float nat :=
  carousel five 300%float 270%float 10%float 0.8%float.

(** Three items fit the container: container 300, item 100. *)
Definition narrowQ : Props Q nat := carousel five 300 100 10 0.8.

(** Items overlap by their full width: separator -100. *)
Definition overlapQ : Props Q nat := carousel seven 300 100 (-100) 0.8.

(** A drag that began at offset [b] and is released at offset [x] while
    item [i] is current. *)
Definition released {N : Type} `{Number N} {T : Type}
    (i : Z) (b x : N) : State N T :=
  {| currentIndexRef := i; scrollXRef := x; scrollXBeginRef := b;
     scroll := x; scrollViewRef := true; timers := []; trace := [] |}.

(** Two margin styles over [Q] with the same key and equal values. *)
Definition margin_eq (a b : MarginStyle Q) : Prop :=
  match a, b with
  | marginLeft x, marginLeft y => x == y
  | marginRight x, marginRight y => x == y
  | marginHorizontal x, marginHorizontal y => x == y
  | _, _ => False
  end.

(** ** The layout hint and the events of the host list *)

(** The object [getItemLayout] returns: [{ offset, length, index }]. *)
Record ItemLayout (N : Type) : Type := {
  layout_offset : N;
  layout_length : N;
  layout_index : Z
}.

Definition getItemLayout {N : Type} `{Number N} {T : Type}
    (p : Props N T) (index : Z) : ItemLayout N :=
  {| layout_offset := getItemOffset p index;
     layout_length := itemWidth p;
     layout_index := index |}.

(** What reaches the mounted component: the three handlers passed to the
    list, the imperative handle [scrollToIndex], and a turn of the timer
    phase. *)
Inductive Input (N : Type) : Type :=
| OnScroll (x : N)
| OnScrollBeginDrag
| OnScrollEndDrag
| ScrollToIndex (index : Z)
| TimerTurn.

Arguments OnScrollBeginDrag {N}.
Arguments OnScrollEndDrag {N}.
Arguments ScrollToIndex {N} index.
Arguments TimerTurn {N}.

Definition handle {N : Type} `{Number N} {T : Type}
    (p : Props N T) (i : Input N) (s : State N T) : State N T :=
  match i with
  | OnScroll x => handleOnScroll x s
  | OnScrollBeginDrag => handleOnScrollBeginDrag p s
  | OnScrollEndDrag => handleOnScrollEndDrag p s
  | ScrollToIndex index => scrollToIndex p index s
  | TimerTurn => tick p s
  end.

Definition run {N : Type} `{Number N} {T : Type}
    (p : Props N T) (inputs : list (Input N)) (s : State N T) : State N T :=
  fold_left (fun s i => handle p i s) inputs s.

(** The indices [onScrollEnd] was called with, oldest first. *)
Fixpoint settled {N T : Type} (tr : list (Event N T)) : list Z :=
  match tr with
  | [] => []
  | CallOnScrollEnd _ index :: tr => index :: settled tr
  | _ :: tr => settled tr
  end.

(** The offsets sent to the list with [scrollToOffset], oldest first. *)
Fixpoint commanded {N T : Type} (tr : list (Event N T)) : list N :=
  match tr with
  | [] => []
  | ScrollToOffset offset _ :: tr => offset :: commanded tr
  | _ :: tr => commanded tr
  end.

Definition timerIndex (t : Timer) : Z :=
  match t with ScrollTimer index => index end.

(** An event the component may emit for the data it was given: a call of
    [onScrollEnd] carries an index within the data and the item at that
    index, and a scroll command is animated. *)
Definition wellFormed {N : Type} `{Number N} {T : Type}
    (p : Props N T) (e : Event N T) : Prop :=
  match e with
  | CallOnScrollEnd item index =>
      (0 <= index < dataLength p)%Z /\ item <> None
      /\ item = data_at p index
  | ScrollToOffset offset animated =>
      animated = true
      /\ exists index : Z,
           (0 <= index < dataLength p)%Z /\ offset = getItemOffset p index
  | _ => True
  end.

(** What every reachable state satisfies: the trace holds well-formed
    events only and every queued scroll is for an index within the
    data. *)
Definition wellFormedState {N : Type} `{Number N} {T : Type}
    (p : Props N T) (s : State N T) : Prop :=
  Forall (wellFormed p) (trace s)
  /\ Forall (fun t => (0 <= timerIndex t < dataLength p)%Z) (timers s).

(** Every call of [onScrollEnd] has its scroll: the offsets of the indices
    the callback was called with are the offsets already sent to the list
    followed by those still queued. *)
Definition paired {N : Type} `{Number N} {T : Type}
    (p : Props N T) (s : State N T) : Prop :=
  scrollViewRef s = true
  /\ map (getItemOffset p) (settled (trace s))
     = commanded (trace s)
       ++ map (fun t => getItemOffset p (timerIndex t)) (timers s).

(** The component has done nothing but answer drags. *)
Definition idle {N : Type} `{Number N} {T : Type}
    (p : Props N T) (s : State N T) : Prop :=
  currentIndexRef s = initialIndex p /\ timers s = []
  /\ settled (trace s) = [] /\ commanded (trace s) = [].

(** * Lemmas *)

(** ** Exact arithmetic *)

Lemma Qltb_lt (x y : Q) : Qltb x y = true <-> x < y.
Proof.
  unfold Qltb. rewrite negb_true_iff. split; intro E.
  - apply Qnot_le_lt. intro L. apply Qle_bool_iff in L. congruence.
  - destruct (Qle_bool y x) eqn:L; [|reflexivity].
    apply Qle_bool_iff in L. exfalso. exact (Qlt_not_le _ _ E L).
Qed.

Lemma Qle_bool_false (x y : Q) : Qle_bool x y = false <-> y < x.
Proof.
  rewrite <- Qltb_lt. unfold Qltb. now rewrite negb_true_iff.
Qed.

(** Unfolds the operations of [Number] at [Q]. *)
Ltac qnum :=
  cbv [of_Z num_add num_sub num_mul num_div num_abs num_ltb num_leb
       Number_Q] in *.

(** The distance between the offsets of two items. *)
Lemma getItemOffset_step (T : Type) (p : Props Q T) (i j : Z) :
  getItemOffset p j - getItemOffset p i ==
  inject_Z (j - i) * (itemWidth p + itemTotalMarginBothSide p).
Proof.
  unfold getItemOffset. qnum. unfold Z.sub.
  rewrite inject_Z_plus, inject_Z_opp. ring.
Qed.

(** ** The timer queue *)

Section TimerLemmas.
Context {N : Type} `{Number N} {T : Type}.
Variable p : Props N T.

Lemma runTimers_scrollViewRef (q : list Timer) (s : State N T) :
  scrollViewRef (fold_left (fun s t => runTimer p t s) q s)
  = scrollViewRef s.
Proof.
  revert s. induction q as [|t q IH]; intro s; simpl; [reflexivity|].
  rewrite IH. unfold runTimer, call.
  destruct (scrollViewRef s) eqn:E; exact E.
Qed.



Lemma scrollToIndex_out_of_range (index : Z) (s : State N T) :
  (index < 0 \/ dataLength p <= index)%Z -> scrollToIndex p index s = s.
Proof.
  intro R. unfold scrollToIndex.
  replace ((index <? 0) || (index >=? dataLength p))%Z with true;
    [reflexivity|].
  symmetry. apply orb_true_iff. destruct R; [left|right]; lia.
Qed.

Lemma scrollToIndex_in_range_eq (index : Z) (s : State N T) :
  (0 <= index < dataLength p)%Z ->
  scrollToIndex p index s
  = setTimeout (ScrollTimer index)
      (set_currentIndexRef index
         (call (onScrollEnd p) (CallOnScrollEnd (data_at p index) index) s)).
Proof.
  intro R. unfold scrollToIndex.
  replace ((index <? 0) || (index >=? dataLength p))%Z with false;
    [reflexivity|].
  symmetry. apply orb_false_iff. split; lia.
Qed.

Lemma data_at_in_range (index : Z) :
  (0 <= index < dataLength p)%Z -> exists item, data_at p index = Some item.
Proof.
  unfold dataLength, data_at. destruct (data p) as [d|]; [|lia].
  intro R. destruct (Z.ltb_spec index 0) as [L|_]; [lia|].
  destruct (nth_error d (Z.to_nat index)) as [item|] eqn:E;
    [now exists item|].
  apply nth_error_None in E. lia.
Qed.

End TimerLemmas.

(** * The geometry *)

(** C1 (as stated, refuted in binary64): for container 300, item 270,
    separator 10 and scale 0.8 the code does not compute a total margin of
    exactly -17: [1 - 0.8] is [0.19999999999999996] in binary64. *)
Lemma totalMargin_binary64_not_minus_17 :
  getItemTotalMarginBothSide example64 <> (-17)%float.
Proof.
  intro E.
  assert (F : PrimFloat.eqb (getItemTotalMarginBothSide example64) (-17)
              = true) by (rewrite E; reflexivity).
  vm_compute in F. discriminate F.
Qed.

(** C1 (amended): in every number system [getItemOffset index] is
    [index * (itemWidth + totalMargin) - (halfContainerWidth -
    halfItemWidth)] with [totalMargin = separatorWidth - (1 -
    inActiveScale) * itemWidth / 2].  For container 300, item 270,
    separator 10 and scale 0.8, exact arithmetic gives [totalMargin = -17]
    and [offset 1 = 238]; binary64 gives [offset 1 = 238] too, and
    [totalMargin = -16.999999999999993]. *)
Theorem getItemOffset_formula :
  (forall (N : Type) (HN : Number N) (T : Type) (p : Props N T) (index : Z),
     let totalMargin :=
       (separatorWidth p
        - (of_Z 1 - inActiveScale p) * itemWidth p / of_Z 2)%num in
     getItemTotalMarginBothSide p = totalMargin /\
     getItemOffset p index
     = (of_Z index * (itemWidth p + totalMargin)
        - (containerWidth p / of_Z 2 - itemWidth p / of_Z 2))%num)
  /\ (getItemTotalMarginBothSide exampleQ == -17
      /\ getItemOffset exampleQ 1 == 238)
  /\ (getItemTotalMarginBothSide example64 = (-16.999999999999993)%float
      /\ getItemOffset example64 1 = 238%float).
Proof.
  split; [|split].
  - intros N HN T p index. split; reflexivity.
  - split; vm_compute; reflexivity.
  - split; vm_compute; reflexivity.
Qed.

(** C9: when [itemWidth + totalMargin] is positive, the offsets of the
    items are strictly increasing in the index. *)
Theorem getItemOffset_increasing (T : Type) (p : Props Q T) (i j : Z) :
  0 < itemWidth p + itemTotalMarginBothSide p ->
  (0 <= i)%Z -> (i < j)%Z -> (j < dataLength p)%Z ->
  getItemOffset p i < getItemOffset p j.
Proof.
  intros Hstep _ Hij _.
  assert (D : 0 < getItemOffset p j - getItemOffset p i).
  { rewrite getItemOffset_step. apply Qmult_lt_0_compat; [|exact Hstep].
    change 0 with (inject_Z 0). rewrite <- Zlt_Qlt. lia. }
  lra.
Qed.

Lemma getItemOffset_increasing_witness :
  getItemOffset exampleQ 1 < getItemOffset exampleQ 3.
Proof.
  apply (@getItemOffset_increasing nat exampleQ 1 3);
    [reflexivity | discriminate | reflexivity | reflexivity].
Defined.

(** C6 (as stated, refuted): with separator -100 the items of width 100
    step backwards by 10, and the interior item 3 of 7 has
    [start = -120 > mid = -130 > end = -140]. *)
Lemma breakpoints_unordered_when_overlapping :
  isInterior overlapQ 3 = true /\
  ~ (startPoint (itemProps overlapQ 0 3) <= midPoint (itemProps overlapQ 0 3)
     /\ midPoint (itemProps overlapQ 0 3) <= endPoint (itemProps overlapQ 0 3)).
Proof.
  split; [reflexivity|].
  intros [L _]. vm_compute in L. apply L. reflexivity.
Qed.

(** C6 (amended): when [itemWidth + totalMargin] is not negative, the
    breakpoints of every interior item (not the first, the last, item 1 or
    item [dataLength - 2]) satisfy [start <= mid <= end]. *)
Theorem interior_breakpoints_ordered
    (T : Type) (p : Props Q T) (scroll : Q) (index : Z) :
  0 <= itemWidth p + itemTotalMarginBothSide p ->
  isInterior p index = true ->
  startPoint (itemProps p scroll index) <= midPoint (itemProps p scroll index)
  /\ midPoint (itemProps p scroll index) <= endPoint (itemProps p scroll index).
Proof.
  intros Hstep I. unfold isInterior in I.
  repeat (apply andb_true_iff in I; destruct I as [I ?]).
  repeat match goal with
         | H : negb _ = true |- _ => apply negb_true_iff in H
         end.
  cbn [itemProps startPoint midPoint endPoint].
  unfold getStartPontInterpolate, getEndPointInterpolate.
  repeat match goal with H : _ = false |- _ => rewrite H; clear H end.
  set (mid := getMidPontInterpolate p index (getAnimatedOffset p index)).
  qnum. split; lra.
Qed.

Lemma interior_breakpoints_ordered_witness :
  startPoint (itemProps exampleQ 0 2) <= midPoint (itemProps exampleQ 0 2)
  /\ midPoint (itemProps exampleQ 0 2) <= endPoint (itemProps exampleQ 0 2).
Proof.
  apply (@interior_breakpoints_ordered nat exampleQ 0 2);
    [discriminate | reflexivity].
Defined.

(** C10: with at least two items, an interior item gets
    [marginHorizontal = totalMargin / 2]; the first and the last item get
    a margin on one side only, of [totalMargin / 4], which is half of an
    interior side; the first item carries it on the right and the last on
    the left, and the sides are exchanged when [inverted] is set. *)
Theorem getItemMarginStyle_sides (T : Type) (p : Props Q T) :
  (2 <= dataLength p)%Z ->
  let totalMargin := getItemTotalMarginBothSide p in
  (forall index, (0 < index < dataLength p - 1)%Z ->
     margin_eq (getItemMarginStyle p index)
               (marginHorizontal (totalMargin / 2)))
  /\ margin_eq (getItemMarginStyle p 0)
       (if inverted p then marginLeft (totalMargin / 4)
        else marginRight (totalMargin / 4))
  /\ margin_eq (getItemMarginStyle p (dataLength p - 1))
       (if inverted p then marginRight (totalMargin / 4)
        else marginLeft (totalMargin / 4))
  /\ totalMargin / 4 == totalMargin / 2 / 2.
Proof.
  intros L totalMargin.
  assert (Q4 : totalMargin / 2 / 2 == totalMargin / 4) by (now field).
  repeat split.
  - intros index R. unfold getItemMarginStyle, isFirstItem, isLastItem.
    destruct (Z.eqb_spec index 0) as [E|_]; [lia|].
    destruct (Z.eqb_spec index (dataLength p - 1)) as [E|_]; [lia|].
    simpl. reflexivity.
  - unfold getItemMarginStyle, isFirstItem. simpl.
    destruct (inverted p); simpl; exact Q4.
  - unfold getItemMarginStyle, isFirstItem, isLastItem.
    destruct (Z.eqb_spec (dataLength p - 1) 0) as [E|_]; [lia|].
    rewrite Z.eqb_refl.
    destruct (inverted p); simpl; exact Q4.
  - symmetry. exact Q4.
Qed.

Lemma getItemMarginStyle_sides_witness :
  margin_eq (getItemMarginStyle exampleQ 0)
            (marginRight (getItemTotalMarginBothSide exampleQ / 4))
  /\ margin_eq (getItemMarginStyle exampleQ 4)
               (marginLeft (getItemTotalMarginBothSide exampleQ / 4)).
Proof.
  destruct (@getItemMarginStyle_sides nat exampleQ) as (_ & F & L & _);
    [discriminate|].
  split; [exact F | exact L].
Defined.

(** * The interpolated value *)

(** C2 (as stated, refuted): with container 300 and item 100, item 1 has
    [start = mid = 0].  The value at [mid] cannot be 1 while the value at
    every offset up to [start] is the inactive scale 0.8. *)
Lemma xOffset_mid_is_start :
  ~ (xOffset (itemProps narrowQ (midPoint (itemProps narrowQ 0 1)) 1) == 1
     /\ forall x : Q,
          x <= startPoint (itemProps narrowQ x 1) ->
          xOffset (itemProps narrowQ x 1) == inActiveScale narrowQ).
Proof.
  intros [M C].
  specialize (C (midPoint (itemProps narrowQ 0 1))).
  rewrite M in C.
  assert (L : midPoint (itemProps narrowQ 0 1)
              <= startPoint (itemProps narrowQ
                               (midPoint (itemProps narrowQ 0 1)) 1))
    by (vm_compute; discriminate).
  specialize (C L). vm_compute in C. discriminate C.
Qed.

(** C2 (amended): for breakpoints with [start < mid < end], the value is
    piecewise-linear from (start, mid, end) to (inactive scale, 1,
    inactive scale): on [start, mid] it is the line from the inactive
    scale to 1, on [mid, end] the line from 1 to the inactive scale; at
    [scroll = mid] it is exactly 1, and at any [scroll <= start] or
    [scroll >= end] it is exactly the inactive scale. *)
Theorem xOffset_at_breakpoints (ip : ItemProps Q) :
  startPoint ip < midPoint ip -> midPoint ip < endPoint ip ->
  (startPoint ip <= item_scroll ip <= midPoint ip ->
   xOffset ip
   == item_inActiveScale ip
      + (item_scroll ip - startPoint ip) / (midPoint ip - startPoint ip)
        * (1 - item_inActiveScale ip))
  /\ (midPoint ip <= item_scroll ip <= endPoint ip ->
      xOffset ip
      == 1 + (item_scroll ip - midPoint ip) / (endPoint ip - midPoint ip)
             * (item_inActiveScale ip - 1))
  /\ (item_scroll ip == midPoint ip -> xOffset ip == 1)
  /\ (item_scroll ip <= startPoint ip \/ endPoint ip <= item_scroll ip ->
      xOffset ip = item_inActiveScale ip).
Proof.
  intros Hsm Hme. unfold xOffset, interpolate. qnum.
  change (inject_Z 1) with 1.
  destruct (Qle_bool (item_scroll ip) (startPoint ip)) eqn:L0;
    [apply Qle_bool_iff in L0 | apply Qle_bool_false in L0].
  - repeat split.
    + intros [A _].
      assert (E : item_scroll ip == startPoint ip) by (apply Qle_antisym; lra).
      rewrite E. field. lra.
    + intros [A _]. lra.
    + intro E. rewrite E in L0. lra.
  - destruct (Qle_bool (endPoint ip) (item_scroll ip)) eqn:L2;
      [apply Qle_bool_iff in L2 | apply Qle_bool_false in L2].
    + repeat split.
      * intros [_ A]. lra.
      * intros [_ A].
        assert (E : item_scroll ip == endPoint ip) by (apply Qle_antisym; lra).
        rewrite E. field. lra.
      * intro E. rewrite E in L2. lra.
    + destruct (Qle_bool (item_scroll ip) (midPoint ip)) eqn:L1;
        [apply Qle_bool_iff in L1 | apply Qle_bool_false in L1].
      * split; [|split; [|split]].
        -- intros _. reflexivity.
        -- intros [A _].
           assert (E : item_scroll ip == midPoint ip)
             by (apply Qle_antisym; lra).
           rewrite E. field. lra.
        -- intro E. rewrite E. field. lra.
        -- intros [C|C]; lra.
      * split; [|split; [|split]].
        -- intros [_ A]. lra.
        -- intros _. reflexivity.
        -- intro E. rewrite E in L1. lra.
        -- intros [C|C]; lra.
Qed.

Lemma xOffset_at_breakpoints_witness :
  xOffset (itemProps exampleQ 238 1) == 1
  /\ xOffset (itemProps exampleQ (-3) 1) = inActiveScale exampleQ
  /\ xOffset (itemProps exampleQ 119 1) == 0.9
  /\ xOffset (itemProps exampleQ 364.5 1) == 0.9.
Proof.
  split; [|split; [|split]].
  - destruct (xOffset_at_breakpoints (itemProps exampleQ 238 1))
      as (_ & _ & M & _); [reflexivity | reflexivity |].
    apply M. vm_compute. reflexivity.
  - destruct (xOffset_at_breakpoints (itemProps exampleQ (-3) 1))
      as (_ & _ & _ & C); [reflexivity | reflexivity |].
    apply C. left. vm_compute. discriminate.
  - destruct (xOffset_at_breakpoints (itemProps exampleQ 119 1))
      as (L & _); [reflexivity | reflexivity |].
    rewrite L; [vm_compute; reflexivity|].
    split; vm_compute; discriminate.
  - destruct (xOffset_at_breakpoints (itemProps exampleQ 364.5 1))
      as (_ & R & _); [reflexivity | reflexivity |].
    rewrite R; [vm_compute; reflexivity|].
    split; vm_compute; discriminate.
Defined.

(** C7: the style of an item does not depend on [inActiveOpacity], and its
    opacity is its scale. *)
Theorem inActiveOpacity_unused
    (N : Type) (HN : Number N) (T : Type)
    (p : Props N T) (o scroll : N) (index : Z) :
  renderItemContainer (with_inActiveOpacity o p) scroll index
  = renderItemContainer p scroll index
  /\ opacity (renderItemContainer p scroll index)
     = scale (renderItemContainer p scroll index).
Proof. split; reflexivity. Qed.

(** * Snapping *)



(** C5: a target outside the data, in particular -1 and [dataLength],
    leaves the state as it was: the current index, the trace of callbacks
    and commands and the timer queue are unchanged, and the call
    returns. *)
Theorem scrollToIndex_ignores_out_of_range
    (N : Type) (HN : Number N) (T : Type) (p : Props N T) (s : State N T) :
  (forall target : Z,
     (target < 0 \/ dataLength p <= target)%Z ->
     scrollToIndex p target s = s)
  /\ scrollToIndex p (-1) s = s
  /\ scrollToIndex p (dataLength p) s = s.
Proof.
  split; [|split].
  - intros target R. now apply scrollToIndex_out_of_range.
  - apply scrollToIndex_out_of_range. lia.
  - apply scrollToIndex_out_of_range. lia.
Qed.

Lemma scrollToIndex_ignores_out_of_range_witness :
  scrollToIndex exampleQ 7 (mount exampleQ) = mount exampleQ.
Proof.
  apply (proj1 (@scrollToIndex_ignores_out_of_range
                  Q _ nat exampleQ (mount exampleQ))).
  right. discriminate.
Defined.

Section DragEnd.
Context {T : Type}.
Variable p : Props Q T.
Variable s : State Q T.

(** The state in which [handleOnScrollEndDrag] decides: the callback has
    been called and, past the guard, the begin offset is reset. *)
Lemma call_refs (cb : bool) (e : Event Q T) :
  currentIndexRef (call cb e s) = currentIndexRef s
  /\ scrollXRef (call cb e s) = scrollXRef s
  /\ scrollXBeginRef (call cb e s) = scrollXBeginRef s
  /\ timers (call cb e s) = timers s
  /\ trace (call cb e s) = trace s ++ (if cb then [e] else []).
Proof.
  destruct cb; simpl; repeat split. now rewrite app_nil_r.
Qed.

Lemma handleOnScrollEndDrag_guard :
  scrollXRef s < 0 ->
  handleOnScrollEndDrag p s = call (onScrollEndDrag p) CallOnScrollEndDrag s.
Proof.
  intro Hneg. unfold handleOnScrollEndDrag.
  destruct (call_refs (onScrollEndDrag p) CallOnScrollEndDrag)
    as (_ & X & _).
  rewrite X. qnum. change (inject_Z 0) with 0.
  apply Qltb_lt in Hneg. now rewrite Hneg.
Qed.

Lemma handleOnScrollEndDrag_decide :
  0 <= scrollXRef s ->
  handleOnScrollEndDrag p s =
  let scrollDistance := scrollXRef s - scrollXBeginRef s in
  let s' := set_scrollXBeginRef 0
              (call (onScrollEndDrag p) CallOnScrollEndDrag s) in
  if Qltb (Qabs scrollDistance) (minScrollDistance p) then
    scrollToIndex p (currentIndexRef s) s'
  else if Qltb scrollDistance 0 then
    scrollToIndex p (currentIndexRef s - 1) s'
  else scrollToIndex p (currentIndexRef s + 1) s'.
Proof.
  intro Hpos. unfold handleOnScrollEndDrag.
  destruct (call_refs (onScrollEndDrag p) CallOnScrollEndDrag)
    as (I & X & B & _).
  cbn [set_scrollXBeginRef currentIndexRef]. rewrite X, B, I. qnum.
  change (inject_Z 0) with 0.
  destruct (Qltb (scrollXRef s) 0) eqn:G; [|reflexivity].
  apply Qltb_lt in G. lra.
Qed.

End DragEnd.

(** C8: when the live offset is negative at the end of a drag, the handler
    stops after calling [onScrollEndDrag]: the current index, the timer
    queue and the begin offset are unchanged and the trace gains nothing
    but that callback, so [scrollToIndex] has not run. *)
Theorem handleOnScrollEndDrag_negative_offset
    (T : Type) (p : Props Q T) (s : State Q T) :
  scrollXRef s < 0 ->
  let s' := handleOnScrollEndDrag p s in
  s' = call (onScrollEndDrag p) CallOnScrollEndDrag s
  /\ currentIndexRef s' = currentIndexRef s
  /\ timers s' = timers s
  /\ scrollXBeginRef s' = scrollXBeginRef s
  /\ trace s'
     = trace s ++ (if onScrollEndDrag p then [CallOnScrollEndDrag] else []).
Proof.
  intros Hneg s'. subst s'. rewrite (handleOnScrollEndDrag_guard p s Hneg).
  destruct (call_refs s (onScrollEndDrag p) CallOnScrollEndDrag)
    as (I & _ & B & Q & L).
  repeat split; assumption.
Qed.

Lemma handleOnScrollEndDrag_negative_offset_witness :
  let s' := handleOnScrollEndDrag exampleQ (released 0 0 (-12)) in
  s' = call (onScrollEndDrag exampleQ) CallOnScrollEndDrag
         (released 0 0 (-12))
  /\ currentIndexRef s' = currentIndexRef (released (T:=nat) 0 0 (-12))
  /\ timers s' = timers (released (T:=nat) 0 0 (-12))
  /\ scrollXBeginRef s' = scrollXBeginRef (released (T:=nat) 0 0 (-12))
  /\ trace s'
     = trace (released 0 0 (-12))
       ++ (if onScrollEndDrag exampleQ then [CallOnScrollEndDrag] else []).
Proof.
  apply (@handleOnScrollEndDrag_negative_offset nat exampleQ
           (released 0 0 (-12))).
  reflexivity.
Defined.

(** C3: at the end of a drag with a live offset that is not negative, with
    [distance] the live offset minus the begin offset, the handler calls
    [scrollToIndex] on the current index when [|distance| <
    minScrollDistance], else on the current index minus one when
    [distance < 0], else on the current index plus one.  A drag from 100
    to 80 with threshold 5 at item 2 of 5 ends on item 1, in exact
    arithmetic and in binary64. *)
Theorem handleOnScrollEndDrag_target :
  (forall (T : Type) (p : Props Q T) (s : State Q T),
     0 <= scrollXRef s ->
     let distance := scrollXRef s - scrollXBeginRef s in
     let s' := set_scrollXBeginRef 0
                 (call (onScrollEndDrag p) CallOnScrollEndDrag s) in
     (Qabs distance < minScrollDistance p ->
      handleOnScrollEndDrag p s = scrollToIndex p (currentIndexRef s) s')
     /\ (minScrollDistance p <= Qabs distance -> distance < 0 ->
         handleOnScrollEndDrag p s
         = scrollToIndex p (currentIndexRef s - 1) s')
     /\ (minScrollDistance p <= Qabs distance -> 0 <= distance ->
         handleOnScrollEndDrag p s
         = scrollToIndex p (currentIndexRef s + 1) s'))
  /\ (currentIndexRef (handleOnScrollEndDrag exampleQ (released 2 100 80))
      = 1%Z
      /\ trace (handleOnScrollEndDrag exampleQ (released 2 100 80))
         = [CallOnScrollEndDrag; CallOnScrollEnd (Some 11%nat) 1])
  /\ (currentIndexRef
        (handleOnScrollEndDrag example64 (released 2 100%float 80%float))
      = 1%Z
      /\ trace
           (handleOnScrollEndDrag example64 (released 2 100%float 80%float))
         = [CallOnScrollEndDrag; CallOnScrollEnd (Some 11%nat) 1]).
Proof.
  split; [|split; split; vm_compute; reflexivity].
  intros T p s Hpos distance s'.
  rewrite (handleOnScrollEndDrag_decide p s Hpos). cbv zeta.
  fold distance. fold s'.
  destruct (Qltb (Qabs distance) (minScrollDistance p)) eqn:A.
  - apply Qltb_lt in A. repeat split; intros; try reflexivity; lra.
  - assert (A' : minScrollDistance p <= Qabs distance).
    { apply Qnot_lt_le. intro L. apply Qltb_lt in L. congruence. }
    destruct (Qltb distance 0) eqn:D.
    + apply Qltb_lt in D. repeat split; intros; try reflexivity; lra.
    + assert (D' : 0 <= distance).
      { apply Qnot_lt_le. intro L. apply Qltb_lt in L. congruence. }
      repeat split; intros; try reflexivity; lra.
Qed.

Lemma handleOnScrollEndDrag_target_witness :
  handleOnScrollEndDrag exampleQ (released 2 100 80)
  = scrollToIndex exampleQ (currentIndexRef (released (T:=nat) 2 100 80) - 1)
      (set_scrollXBeginRef 0
         (call (onScrollEndDrag exampleQ) CallOnScrollEndDrag
            (released 2 100 80))).
Proof.
  destruct (proj1 handleOnScrollEndDrag_target nat exampleQ
              (released 2 100 80)) as (_ & B & _).
  - discriminate.
  - apply B.
    + vm_compute. discriminate.
    + reflexivity.
Defined.

(** * More of the geometry *)

(** Exposes the branches of the three breakpoint functions. *)
Ltac breakpoints :=
  cbn [itemProps startPoint midPoint endPoint];
  unfold getStartPontInterpolate, getEndPointInterpolate,
    getMidPontInterpolate, getAnimatedOffset, isFirstItem, isLastItem.

(** Decides the integer tests of the goal, dropping impossible cases. *)
Ltac index_cases :=
  repeat match goal with
         | |- context [Z.eqb ?a ?b] => destruct (Z.eqb_spec a b); try lia
         end.

(** Moves [inject_Z] to the leaves of integer expressions. *)
Ltac push_inject :=
  repeat match goal with
         | |- context [Z.sub (Zpos ?a) (Zpos ?b)] =>
             let v := eval compute in (Z.sub (Zpos a) (Zpos b)) in
             change (Z.sub (Zpos a) (Zpos b)) with v
         end;
  unfold Z.sub;
  repeat rewrite inject_Z_plus;
  repeat rewrite inject_Z_opp;
  repeat match goal with
         | |- context [inject_Z (Zpos ?n)] =>
             change (inject_Z (Zpos n)) with (Zpos n # 1)
         | |- context [inject_Z (Zneg ?n)] =>
             change (inject_Z (Zneg n)) with (Zneg n # 1)
         | |- context [inject_Z 0] => change (inject_Z 0) with 0
         end.

(** Halving is multiplication by [1 # 2], which keeps the goal linear. *)
Ltac arithmetic :=
  unfold halfContainerWidth, halfItemWidth in *; qnum; push_inject;
  unfold Qdiv in *; change (/ 2) with (1 # 2) in *.

Lemma startPoint_previous_mid (T : Type) (p : Props Q T) (x y : Q) (i : Z) :
  (0 <= i)%Z -> (i + 1 < dataLength p)%Z ->
  startPoint (itemProps p x (i + 1)) == midPoint (itemProps p y i).
Proof.
  intros Hi Hn. breakpoints.
  destruct (Z.eqb_spec (i + 1) 1) as [E|NE].
  - assert (i = 0)%Z by lia. subst i. index_cases. arithmetic. ring.
  - destruct (Z.eqb_spec (i + 1) (dataLength p - 1)) as [E|NE'].
    + assert (L : dataLength p = (i + 2)%Z) by lia. rewrite L.
      index_cases. arithmetic. ring.
    + index_cases. arithmetic. ring.
Qed.

Lemma endPoint_next_mid (T : Type) (p : Props Q T) (x y : Q) (i : Z) :
  (3 <= dataLength p)%Z -> (0 <= i)%Z -> (i + 1 < dataLength p)%Z ->
  endPoint (itemProps p x i) == midPoint (itemProps p y (i + 1)).
Proof.
  intros H3 Hi Hn. breakpoints.
  destruct (Z.eqb_spec i 0) as [E|NE].
  - subst i. index_cases. arithmetic. ring.
  - destruct (Z.eqb_spec i (dataLength p - 2)) as [E|NE'].
    + assert (L : dataLength p = (i + 2)%Z) by lia. rewrite L.
      index_cases. arithmetic. ring.
    + index_cases. arithmetic. ring.
Qed.

(** X1: the breakpoints of neighbouring items chain.  The start of item
    [i + 1] is the mid of item [i]; with at least three items the end of
    item [i] is the mid of item [i + 1]. *)
Theorem breakpoints_chain (T : Type) (p : Props Q T) (x : Q) (i : Z) :
  (0 <= i)%Z -> (i + 1 < dataLength p)%Z ->
  startPoint (itemProps p x (i + 1)) == midPoint (itemProps p x i)
  /\ ((3 <= dataLength p)%Z ->
      endPoint (itemProps p x i) == midPoint (itemProps p x (i + 1))).
Proof.
  intros Hi Hn. split.
  - now apply startPoint_previous_mid.
  - intro H3. now apply endPoint_next_mid.
Qed.

Lemma breakpoints_chain_witness :
  startPoint (itemProps exampleQ 0 (3 + 1)) == midPoint (itemProps exampleQ 0 3)
  /\ ((3 <= dataLength exampleQ)%Z ->
      endPoint (itemProps exampleQ 0 3)
      == midPoint (itemProps exampleQ 0 (3 + 1))).
Proof.
  apply (@breakpoints_chain nat exampleQ 0 3); [discriminate | reflexivity].
Defined.

(** X2: with exactly two items the chain does not close.  The end of the
    first item lies [(containerWidth - itemWidth) / 2] past the mid of the
    second, because item 0 is tested as first before it is tested as
    second to last. *)
Theorem two_items_end_past_mid (T : Type) (p : Props Q T) (x : Q) :
  dataLength p = 2%Z ->
  endPoint (itemProps p x 0) - midPoint (itemProps p x 1)
  == (containerWidth p - itemWidth p) / 2.
Proof.
  intro L. breakpoints. rewrite L. index_cases. arithmetic. field.
Qed.

Lemma two_items_end_past_mid_witness :
  endPoint (itemProps (carousel [1%nat; 2%nat] 300 270 10 0.8) 0 0)
  - midPoint (itemProps (carousel [1%nat; 2%nat] 300 270 10 0.8) 0 1)
  == (300 - 270) / 2.
Proof.
  apply (@two_items_end_past_mid nat
           (carousel [1%nat; 2%nat] 300 270 10 0.8) 0).
  reflexivity.
Defined.

(** X3: with at least three items, a step [itemWidth + totalMargin] that
    is not negative and not smaller than the side gap [halfContainerWidth
    - halfItemWidth], every item, the first two and the last two
    included, has [start <= mid <= end]. *)
Theorem breakpoints_ordered_everywhere
    (T : Type) (p : Props Q T) (x : Q) (i : Z) :
  (3 <= dataLength p)%Z -> (0 <= i < dataLength p)%Z ->
  0 <= itemWidth p + itemTotalMarginBothSide p ->
  halfContainerWidth p - halfItemWidth p
  <= itemWidth p + itemTotalMarginBothSide p ->
  startPoint (itemProps p x i) <= midPoint (itemProps p x i)
  /\ midPoint (itemProps p x i) <= endPoint (itemProps p x i).
Proof.
  intros H3 Hi Hstep Hgap.
  unfold halfContainerWidth, halfItemWidth in Hgap. qnum.
  change (inject_Z 2) with 2 in Hgap.
  breakpoints.
  destruct (Z.eqb_spec i 0) as [E0|N0].
  - subst i. index_cases. arithmetic. split; lra.
  - destruct (Z.eqb_spec i 1) as [E1|N1].
    + subst i. destruct (Z.eqb_spec 1 (dataLength p - 2)) as [E|N].
      * assert (L : dataLength p = 3%Z) by lia. rewrite L.
        index_cases. arithmetic. split; lra.
      * index_cases. arithmetic. split; lra.
    + destruct (Z.eqb_spec i (dataLength p - 1)) as [EL|NL].
      * assert (L : dataLength p = (i + 1)%Z) by lia. rewrite L.
        index_cases. arithmetic. split; lra.
      * destruct (Z.eqb_spec i (dataLength p - 2)) as [ES|NS].
        -- assert (L : dataLength p = (i + 2)%Z) by lia. rewrite L.
           index_cases. arithmetic. split; lra.
        -- index_cases. arithmetic. split; lra.
Qed.

Lemma breakpoints_ordered_everywhere_witness :
  startPoint (itemProps exampleQ 0 4) <= midPoint (itemProps exampleQ 0 4)
  /\ midPoint (itemProps exampleQ 0 4) <= endPoint (itemProps exampleQ 0 4).
Proof.
  apply (@breakpoints_ordered_everywhere nat exampleQ 0 4).
  - discriminate.
  - split; [discriminate | reflexivity].
  - discriminate.
  - discriminate.
Defined.

(** X4: a middle item is fully active exactly at the offset
    [scrollToIndex] sends for it: its mid is [getItemOffset].  The first
    item has its mid at 0 and the last item one side gap before its
    offset. *)
Theorem midPoint_and_offset (T : Type) (p : Props Q T) (x : Q) :
  (forall i : Z, (0 < i < dataLength p - 1)%Z ->
     midPoint (itemProps p x i) == getItemOffset p i)
  /\ midPoint (itemProps p x 0) == 0
  /\ ((2 <= dataLength p)%Z ->
      midPoint (itemProps p x (dataLength p - 1))
      == getItemOffset p (dataLength p - 1)
         - (halfContainerWidth p - halfItemWidth p)).
Proof.
  split; [|split].
  - intros i Hi. breakpoints. unfold getItemOffset. index_cases.
    arithmetic. ring.
  - breakpoints. cbn [Z.eqb]. arithmetic. ring.
  - intro H2. breakpoints. unfold getItemOffset. rewrite Z.eqb_refl.
    destruct (Z.eqb_spec (dataLength p - 1) 0) as [E|_]; [lia|].
    arithmetic. field.
Qed.

Lemma midPoint_and_offset_witness :
  midPoint (itemProps exampleQ 0 2) == getItemOffset exampleQ 2.
Proof.
  apply (proj1 (@midPoint_and_offset nat exampleQ 0)).
  split; reflexivity.
Defined.

(** X5: in the layout hints given to the list, an item is [itemWidth]
    long and the next item starts [totalMargin] after it ends. *)
Theorem getItemLayout_gap (T : Type) (p : Props Q T) (i : Z) :
  layout_length (getItemLayout p i) = itemWidth p
  /\ layout_index (getItemLayout p i) = i
  /\ layout_offset (getItemLayout p (i + 1))
     - (layout_offset (getItemLayout p i) + layout_length (getItemLayout p i))
     == getItemTotalMarginBothSide p.
Proof.
  split; [reflexivity|split; [reflexivity|]].
  cbn [getItemLayout layout_offset layout_length].
  unfold getItemOffset, itemTotalMarginBothSide. arithmetic. ring.
Qed.

(** * Geometry and interpolation together *)

Lemma interpolate_outside (x a m b s : Q) :
  x <= a \/ b <= x -> interpolate x (a, m, b) (s, 1, s) CLAMP = s.
Proof.
  intro O. unfold interpolate. qnum.
  destruct (Qle_bool x a) eqn:L0; [reflexivity|].
  destruct (Qle_bool b x) eqn:L2; [reflexivity|].
  apply Qle_bool_false in L0. apply Qle_bool_false in L2.
  destruct O; lra.
Qed.

Lemma interpolate_at_mid (x a m b s : Q) :
  a < m -> m < b -> x == m -> interpolate x (a, m, b) (s, 1, s) CLAMP == 1.
Proof.
  intros Ham Hmb E. unfold interpolate. qnum.
  destruct (Qle_bool x a) eqn:L0;
    [apply Qle_bool_iff in L0; lra | clear L0].
  destruct (Qle_bool b x) eqn:L2;
    [apply Qle_bool_iff in L2; lra | clear L2].
  destruct (Qle_bool x m) eqn:L1;
    [|apply Qle_bool_false in L1; lra].
  rewrite E. field. lra.
Qed.

(** A fraction of a positive length lies between 0 and 1. *)
Lemma fraction_bounds (u v : Q) : 0 <= u -> u <= v -> 0 < v -> 0 <= u / v <= 1.
Proof.
  intros Hu Huv Hv. split.
  - apply Qle_shift_div_l; [exact Hv | lra].
  - apply Qle_shift_div_r; [exact Hv | lra].
Qed.

Lemma interpolate_bounds (x a m b s : Q) :
  a < m -> m < b -> s <= 1 ->
  s <= interpolate x (a, m, b) (s, 1, s) CLAMP <= 1.
Proof.
  intros Ham Hmb Hs. unfold interpolate. qnum.
  destruct (Qle_bool x a) eqn:L0; [lra|apply Qle_bool_false in L0].
  destruct (Qle_bool b x) eqn:L2; [lra|apply Qle_bool_false in L2].
  destruct (Qle_bool x m) eqn:L1;
    [apply Qle_bool_iff in L1 | apply Qle_bool_false in L1].
  - destruct (@fraction_bounds (x - a) (m - a)) as [F0 F1]; try lra.
    set (t := (x - a) / (m - a)) in *. nra.
  - destruct (@fraction_bounds (x - m) (b - m)) as [F0 F1]; try lra.
    set (t := (x - m) / (b - m)) in *. nra.
Qed.

Lemma breakpoints_strictly_ordered
    (T : Type) (p : Props Q T) (x : Q) (i : Z) :
  (3 <= dataLength p)%Z -> (0 <= i < dataLength p)%Z ->
  0 < itemWidth p + itemTotalMarginBothSide p ->
  halfContainerWidth p - halfItemWidth p
  < itemWidth p + itemTotalMarginBothSide p ->
  startPoint (itemProps p x i) < midPoint (itemProps p x i)
  /\ midPoint (itemProps p x i) < endPoint (itemProps p x i).
Proof.
  intros H3 Hi Hstep Hgap.
  unfold halfContainerWidth, halfItemWidth in Hgap. qnum.
  change (inject_Z 2) with 2 in Hgap.
  breakpoints.
  destruct (Z.eqb_spec i 0) as [E0|N0].
  - subst i. index_cases. arithmetic. split; lra.
  - destruct (Z.eqb_spec i 1) as [E1|N1].
    + subst i. destruct (Z.eqb_spec 1 (dataLength p - 2)) as [E|N].
      * assert (L : dataLength p = 3%Z) by lia. rewrite L.
        index_cases. arithmetic. split; lra.
      * index_cases. arithmetic. split; lra.
    + destruct (Z.eqb_spec i (dataLength p - 1)) as [EL|NL].
      * assert (L : dataLength p = (i + 1)%Z) by lia. rewrite L.
        index_cases. arithmetic. split; lra.
      * destruct (Z.eqb_spec i (dataLength p - 2)) as [ES|NS].
        -- assert (L : dataLength p = (i + 2)%Z) by lia. rewrite L.
           index_cases. arithmetic. split; lra.
        -- index_cases. arithmetic. split; lra.
Qed.

(** X6: with at least three items and a step [itemWidth + totalMargin]
    that is positive and larger than the side gap, so that the breakpoints
    of every item are strictly increasing, when the list is scrolled to
    the mid of an item, the item after it and the item before it are
    drawn at the inactive scale. *)
Theorem neighbours_inactive_at_mid
    (T : Type) (p : Props Q T) (x : Q) (i : Z) :
  (3 <= dataLength p)%Z -> (0 <= i)%Z -> (i + 1 < dataLength p)%Z ->
  0 < itemWidth p + itemTotalMarginBothSide p ->
  halfContainerWidth p - halfItemWidth p
  < itemWidth p + itemTotalMarginBothSide p ->
  (startPoint (itemProps p x i) < midPoint (itemProps p x i)
   /\ midPoint (itemProps p x i) < endPoint (itemProps p x i)
   /\ startPoint (itemProps p x (i + 1)) < midPoint (itemProps p x (i + 1))
   /\ midPoint (itemProps p x (i + 1)) < endPoint (itemProps p x (i + 1)))
  /\ scale (renderItemContainer p (midPoint (itemProps p x i)) (i + 1))
     = inActiveScale p
  /\ scale (renderItemContainer p (midPoint (itemProps p x (i + 1))) i)
     = inActiveScale p.
Proof.
  intros H3 Hi Hn Hstep Hgap.
  assert (R0 : (0 <= i < dataLength p)%Z) by lia.
  assert (R1 : (0 <= i + 1 < dataLength p)%Z) by lia.
  destruct (@breakpoints_strictly_ordered T p x i H3 R0 Hstep Hgap)
    as [O1 O2].
  destruct (@breakpoints_strictly_ordered T p x (i + 1) H3 R1 Hstep Hgap)
    as [O3 O4].
  split; [repeat split; assumption|].
  unfold renderItemContainer, Item, xOffset.
  cbn [scale item_scroll item_inActiveScale].
  split; apply interpolate_outside.
  - left.
    pose proof (@startPoint_previous_mid T p x x i Hi Hn) as S.
    cbn [itemProps startPoint midPoint] in S. cbn [itemProps midPoint].
    rewrite S. apply Qle_refl.
  - right.
    pose proof (@endPoint_next_mid T p x x i H3 Hi Hn) as E.
    cbn [itemProps endPoint midPoint] in E. cbn [itemProps endPoint midPoint].
    rewrite E. apply Qle_refl.
Qed.

Lemma neighbours_inactive_at_mid_witness :
  scale (renderItemContainer exampleQ (midPoint (itemProps exampleQ 0 2))
           (2 + 1))
  = inActiveScale exampleQ
  /\ scale (renderItemContainer exampleQ
              (midPoint (itemProps exampleQ 0 (2 + 1))) 2)
     = inActiveScale exampleQ.
Proof.
  destruct (@neighbours_inactive_at_mid nat exampleQ 0 2) as (_ & A & B);
    [discriminate | discriminate | reflexivity | reflexivity | reflexivity |].
  split; [exact A | exact B].
Defined.

(** X7: with at least three items and a step [itemWidth + totalMargin]
    that is positive and larger than the side gap, a middle item is drawn
    with scale and opacity 1 at the offset [scrollToIndex] sends for
    it. *)
Theorem full_scale_at_item_offset (T : Type) (p : Props Q T) (i : Z) :
  (3 <= dataLength p)%Z -> (0 < i < dataLength p - 1)%Z ->
  0 < itemWidth p + itemTotalMarginBothSide p ->
  halfContainerWidth p - halfItemWidth p
  < itemWidth p + itemTotalMarginBothSide p ->
  scale (renderItemContainer p (getItemOffset p i) i) == 1
  /\ opacity (renderItemContainer p (getItemOffset p i) i) == 1.
Proof.
  intros H3 Hi Hstep Hgap.
  assert (R : (0 <= i < dataLength p)%Z) by lia.
  destruct (@breakpoints_strictly_ordered T p (getItemOffset p i) i
              H3 R Hstep Hgap) as [Hsm Hme].
  assert (M : getItemOffset p i == midPoint (itemProps p (getItemOffset p i) i)).
  { breakpoints. unfold getItemOffset. index_cases. arithmetic. ring. }
  assert (V : xOffset (itemProps p (getItemOffset p i) i) == 1).
  { unfold xOffset. apply interpolate_at_mid; assumption. }
  split; exact V.
Qed.

Lemma full_scale_at_item_offset_witness :
  scale (renderItemContainer exampleQ (getItemOffset exampleQ 2) 2) == 1
  /\ opacity (renderItemContainer exampleQ (getItemOffset exampleQ 2) 2) == 1.
Proof.
  apply (@full_scale_at_item_offset nat exampleQ 2).
  - discriminate.
  - split; reflexivity.
  - reflexivity.
  - reflexivity.
Defined.

(** X8: with at least three items, a step [itemWidth + totalMargin] that
    is positive and larger than the side gap, and an inactive scale of at
    most 1, the scale and opacity of every item stay between the inactive
    scale and 1 at every scroll offset. *)
Theorem scale_within_bounds (T : Type) (p : Props Q T) (x : Q) (i : Z) :
  (3 <= dataLength p)%Z -> (0 <= i < dataLength p)%Z ->
  0 < itemWidth p + itemTotalMarginBothSide p ->
  halfContainerWidth p - halfItemWidth p
  < itemWidth p + itemTotalMarginBothSide p ->
  inActiveScale p <= 1 ->
  inActiveScale p <= scale (renderItemContainer p x i) <= 1
  /\ opacity (renderItemContainer p x i) = scale (renderItemContainer p x i).
Proof.
  intros H3 Hi Hstep Hgap Hs.
  destruct (@breakpoints_strictly_ordered T p x i H3 Hi Hstep Hgap)
    as [Hsm Hme].
  split; [|reflexivity].
  unfold renderItemContainer, Item, xOffset. cbn [scale].
  apply interpolate_bounds; assumption.
Qed.

Lemma scale_within_bounds_witness :
  inActiveScale exampleQ <= scale (renderItemContainer exampleQ 100 1) <= 1
  /\ opacity (renderItemContainer exampleQ 100 1)
     = scale (renderItemContainer exampleQ 100 1).
Proof.
  apply (@scale_within_bounds nat exampleQ 100 1).
  - discriminate.
  - split; [discriminate | reflexivity].
  - reflexivity.
  - reflexivity.
  - discriminate.
Defined.

(** * More of the controller *)

Section ControllerLemmas.
Context {N : Type} `{Number N} {T : Type}.
Variable p : Props N T.

Lemma scrollToIndex_cases (index : Z) (s : State N T) :
  ((index < 0 \/ dataLength p <= index)%Z /\ scrollToIndex p index s = s)
  \/ ((0 <= index < dataLength p)%Z /\
      scrollToIndex p index s
      = setTimeout (ScrollTimer index)
          (set_currentIndexRef index
             (call (onScrollEnd p)
                (CallOnScrollEnd (data_at p index) index) s))).
Proof.
  destruct (Z_lt_dec index 0) as [L|L];
    [left; split; [lia | apply scrollToIndex_out_of_range; lia]|].
  destruct (Z_le_dec (dataLength p) index) as [G|G];
    [left; split; [lia | apply scrollToIndex_out_of_range; lia]|].
  right. split; [lia | apply scrollToIndex_in_range_eq; lia].
Qed.

(** [scrollToIndex] touches the current index, the queue and the trace
    only. *)
Lemma scrollToIndex_frame (index : Z) (s : State N T) :
  scrollXRef (scrollToIndex p index s) = scrollXRef s
  /\ scrollXBeginRef (scrollToIndex p index s) = scrollXBeginRef s
  /\ scroll (scrollToIndex p index s) = scroll s
  /\ scrollViewRef (scrollToIndex p index s) = scrollViewRef s.
Proof.
  destruct (scrollToIndex_cases index s) as [[_ E]|[_ E]]; rewrite E.
  - repeat split.
  - unfold call. destruct (onScrollEnd p); repeat split.
Qed.

Lemma scrollToIndex_currentIndex (index : Z) (s : State N T) :
  currentIndexRef (scrollToIndex p index s) = currentIndexRef s
  \/ ((0 <= index < dataLength p)%Z
      /\ currentIndexRef (scrollToIndex p index s) = index).
Proof.
  destruct (scrollToIndex_cases index s) as [[_ E]|[R E]]; rewrite E.
  - now left.
  - right. split; [exact R | reflexivity].
Qed.

(** The whole effect of a timer turn. *)
Lemma runTimers_state (q : list Timer) (s : State N T) :
  fold_left (fun s t => runTimer p t s) q s
  = {| currentIndexRef := currentIndexRef s; scrollXRef := scrollXRef s;
       scrollXBeginRef := scrollXBeginRef s; scroll := scroll s;
       scrollViewRef := scrollViewRef s; timers := timers s;
       trace := trace s ++ (if scrollViewRef s
                            then map (scrollCommand p) q else []) |}.
Proof.
  revert s. induction q as [|t q IH]; intro s; simpl.
  - destruct s; simpl. destruct scrollViewRef0; now rewrite app_nil_r.
  - rewrite IH. unfold runTimer, call.
    destruct (scrollViewRef s) eqn:E; simpl; rewrite ?E.
    + now rewrite <- app_assoc.
    + reflexivity.
Qed.

Lemma tick_state (s : State N T) :
  tick p s
  = {| currentIndexRef := currentIndexRef s; scrollXRef := scrollXRef s;
       scrollXBeginRef := scrollXBeginRef s; scroll := scroll s;
       scrollViewRef := scrollViewRef s; timers := [];
       trace := trace s ++ (if scrollViewRef s
                            then map (scrollCommand p) (timers s)
                            else []) |}.
Proof. unfold tick. now rewrite runTimers_state. Qed.

Lemma handleOnScrollEndDrag_cases (s : State N T) :
  let s1 := call (onScrollEndDrag p) CallOnScrollEndDrag s in
  handleOnScrollEndDrag p s = s1
  \/ exists index : Z,
       (currentIndexRef s - 1 <= index <= currentIndexRef s + 1)%Z
       /\ handleOnScrollEndDrag p s
          = scrollToIndex p index (set_scrollXBeginRef (of_Z 0) s1).
Proof.
  intro s1. unfold handleOnScrollEndDrag. fold s1.
  assert (I : currentIndexRef s1 = currentIndexRef s)
    by (subst s1; unfold call; now destruct (onScrollEndDrag p)).
  destruct (num_ltb (scrollXRef s1) (of_Z 0)); [now left|right].
  cbn [set_scrollXBeginRef currentIndexRef]. rewrite I.
  destruct (num_ltb _ (minScrollDistance p));
    [exists (currentIndexRef s); split; [lia|reflexivity]|].
  destruct (num_ltb _ (of_Z 0)).
  - exists (currentIndexRef s - 1)%Z. split; [lia|reflexivity].
  - exists (currentIndexRef s + 1)%Z. split; [lia|reflexivity].
Qed.

Lemma settled_app (a b : list (Event N T)) :
  settled (a ++ b) = settled a ++ settled b.
Proof.
  induction a as [|e a IH]; [reflexivity|].
  destruct e; simpl; now rewrite IH.
Qed.

Lemma commanded_app (a b : list (Event N T)) :
  commanded (a ++ b) = commanded a ++ commanded b.
Proof.
  induction a as [|e a IH]; [reflexivity|].
  destruct e; simpl; now rewrite IH.
Qed.

Lemma commanded_scrollCommands (q : list Timer) :
  commanded (map (scrollCommand p) q)
  = map (fun t => getItemOffset p (timerIndex t)) q.
Proof.
  induction q as [|[i] q IH]; [reflexivity|]. simpl. now rewrite IH.
Qed.

Lemma settled_scrollCommands (q : list Timer) :
  settled (map (scrollCommand p) q) = [].
Proof. induction q as [|[i] q IH]; [reflexivity|exact IH]. Qed.

End ControllerLemmas.

Section Reachable.
Context {N : Type} `{Number N} {T : Type}.
Variable p : Props N T.

Lemma call_frame (cb : bool) (e : Event N T) (s : State N T) :
  currentIndexRef (call cb e s) = currentIndexRef s
  /\ scrollXRef (call cb e s) = scrollXRef s
  /\ scrollXBeginRef (call cb e s) = scrollXBeginRef s
  /\ scroll (call cb e s) = scroll s
  /\ scrollViewRef (call cb e s) = scrollViewRef s
  /\ timers (call cb e s) = timers s
  /\ trace (call cb e s) = trace s ++ (if cb then [e] else []).
Proof. destruct cb; simpl; repeat split. now rewrite app_nil_r. Qed.

(** An invariant of the handlers is an invariant of every run. *)
Lemma run_invariant (I : State N T -> Prop) :
  (forall i s, I s -> I (handle p i s)) ->
  forall inputs s, I s -> I (run p inputs s).
Proof.
  intros Hstep inputs. unfold run.
  induction inputs as [|i inputs IH]; intros s Hs; simpl; [exact Hs|].
  apply IH, Hstep, Hs.
Qed.

Lemma handle_currentIndex (i : Input N) (s : State N T) :
  (0 <= currentIndexRef s < dataLength p)%Z ->
  (0 <= currentIndexRef (handle p i s) < dataLength p)%Z.
Proof.
  intro V. destruct i as [x| | |index|]; cbn [handle].
  - exact V.
  - unfold handleOnScrollBeginDrag. cbn [set_scrollXBeginRef currentIndexRef].
    now rewrite (proj1 (call_frame _ _ s)).
  - destruct (handleOnScrollEndDrag_cases p s) as [E|(index & _ & E)];
      rewrite E.
    + now rewrite (proj1 (call_frame _ _ s)).
    + destruct (scrollToIndex_currentIndex p index
                  (set_scrollXBeginRef (of_Z 0)
                     (call (onScrollEndDrag p) CallOnScrollEndDrag s)))
        as [C|[R C]]; rewrite C; [|exact R].
      cbn [set_scrollXBeginRef currentIndexRef].
      now rewrite (proj1 (call_frame _ _ s)).
  - destruct (scrollToIndex_currentIndex p index s) as [C|[R C]];
      rewrite C; [exact V | exact R].
  - now rewrite tick_state.
Qed.

Lemma handle_scroll_cells (i : Input N) (s : State N T) :
  scroll s = scrollXRef s -> scroll (handle p i s) = scrollXRef (handle p i s).
Proof.
  intro V. destruct i as [x| | |index|]; cbn [handle].
  - reflexivity.
  - unfold handleOnScrollBeginDrag. cbn [set_scrollXBeginRef scroll scrollXRef].
    destruct (call_frame (onScrollBeginDrag p) CallOnScrollBeginDrag s)
      as (_ & X & _ & S & _). now rewrite X, S.
  - destruct (call_frame (onScrollEndDrag p) CallOnScrollEndDrag s)
      as (_ & X & _ & S & _).
    destruct (handleOnScrollEndDrag_cases p s) as [E|(index & _ & E)];
      rewrite E.
    + now rewrite X, S.
    + destruct (scrollToIndex_frame p index
                  (set_scrollXBeginRef (of_Z 0)
                     (call (onScrollEndDrag p) CallOnScrollEndDrag s)))
        as (X' & _ & S' & _).
      rewrite X', S'. cbn [set_scrollXBeginRef scroll scrollXRef].
      now rewrite X, S.
  - destruct (scrollToIndex_frame p index s) as (X' & _ & S' & _).
    now rewrite X', S'.
  - now rewrite tick_state.
Qed.

End Reachable.

(** X9: if the current index is an index of the data, it is one after
    every sequence of scroll events, drags, [scrollToIndex] calls and
    timer turns. *)
Theorem currentIndex_stays_valid
    (N : Type) (HN : Number N) (T : Type)
    (p : Props N T) (inputs : list (Input N)) (s : State N T) :
  (0 <= currentIndexRef s < dataLength p)%Z ->
  (0 <= currentIndexRef (run p inputs s) < dataLength p)%Z.
Proof.
  apply (run_invariant p
           (fun s => (0 <= currentIndexRef s < dataLength p)%Z)).
  intros i s0. apply handle_currentIndex.
Qed.

Lemma currentIndex_stays_valid_witness :
  (0 <= currentIndexRef
          (run exampleQ
             [OnScrollBeginDrag; OnScroll (-40)%Q; OnScrollEndDrag;
              ScrollToIndex 9; OnScrollBeginDrag; OnScroll 30%Q;
              OnScrollEndDrag; TimerTurn]
             (mount exampleQ))
   < dataLength exampleQ)%Z.
Proof.
  apply (@currentIndex_stays_valid Q _ nat exampleQ).
  split; [discriminate | reflexivity].
Defined.

(** X10: the end of a drag moves the current index by at most one. *)
Theorem drag_moves_at_most_one
    (N : Type) (HN : Number N) (T : Type) (p : Props N T) (s : State N T) :
  (currentIndexRef s - 1 <= currentIndexRef (handleOnScrollEndDrag p s)
   <= currentIndexRef s + 1)%Z.
Proof.
  pose proof (proj1 (call_frame (onScrollEndDrag p) CallOnScrollEndDrag s))
    as I.
  destruct (handleOnScrollEndDrag_cases p s) as [E|(index & R & E)];
    rewrite E.
  - rewrite I. lia.
  - destruct (scrollToIndex_currentIndex p index
                (set_scrollXBeginRef (of_Z 0)
                   (call (onScrollEndDrag p) CallOnScrollEndDrag s)))
      as [C|[_ C]]; rewrite C.
    + cbn [set_scrollXBeginRef currentIndexRef]. rewrite I. lia.
    + exact R.
Qed.

(** X11: the offset that drives the rendering and the offset the snap
    decision reads are the same cell contents: once [scroll] and
    [scrollXRef] agree, as they do after the first render, they agree
    after every sequence of inputs. *)
Theorem scroll_cells_agree
    (N : Type) (HN : Number N) (T : Type)
    (p : Props N T) (inputs : list (Input N)) :
  scroll (run p inputs (mount p)) = scrollXRef (run p inputs (mount p)).
Proof.
  apply (run_invariant p (fun s => scroll s = scrollXRef s)).
  - intros i s0. apply handle_scroll_cells.
  - reflexivity.
Qed.

Section Traces.
Context {N : Type} `{Number N} {T : Type}.
Variable p : Props N T.

Lemma scrollToIndex_paired (index : Z) (s : State N T) :
  onScrollEnd p = true -> paired p s -> paired p (scrollToIndex p index s).
Proof.
  intros Hcb [M P]. destruct (scrollToIndex_cases p index s) as [[_ E]|[_ E]];
    rewrite E; [now split|].
  rewrite Hcb. split; [exact M|].
  cbn [setTimeout set_timers set_currentIndexRef call emit trace timers].
  rewrite settled_app, commanded_app, !map_app, P. simpl.
  now rewrite app_nil_r, app_assoc.
Qed.

Lemma call_drag_paired (cb : bool) (e : Event N T) (s : State N T) :
  settled [e] = [] -> commanded [e] = [] ->
  paired p s -> paired p (call cb e s).
Proof.
  intros Se Ce [M P]. destruct cb; [|now split].
  split; [exact M|]. cbn [call emit trace timers].
  now rewrite settled_app, commanded_app, Se, Ce, !app_nil_r.
Qed.

Lemma handle_paired (i : Input N) (s : State N T) :
  onScrollEnd p = true -> paired p s -> paired p (handle p i s).
Proof.
  intros Hcb P. destruct i as [x| | |index|]; cbn [handle].
  - exact P.
  - unfold handleOnScrollBeginDrag.
    apply (call_drag_paired (onScrollBeginDrag p) CallOnScrollBeginDrag)
      in P; [exact P | reflexivity | reflexivity].
  - apply (call_drag_paired (onScrollEndDrag p) CallOnScrollEndDrag)
      in P; [| reflexivity | reflexivity].
    destruct (handleOnScrollEndDrag_cases p s) as [E|(index & _ & E)];
      rewrite E; [exact P|].
    apply scrollToIndex_paired; [exact Hcb | exact P].
  - now apply scrollToIndex_paired.
  - destruct P as [M P]. rewrite tick_state. split; [exact M|].
    cbn [trace timers]. rewrite M, settled_app, commanded_app.
    rewrite settled_scrollCommands, commanded_scrollCommands, app_nil_r, P.
    simpl. now rewrite app_nil_r.
Qed.

Lemma scrollToIndex_wellFormed (index : Z) (s : State N T) :
  wellFormedState p s -> wellFormedState p (scrollToIndex p index s).
Proof.
  intros [W Q]. destruct (scrollToIndex_cases p index s) as [[_ E]|[R E]];
    rewrite E; [now split|].
  split.
  - cbn [setTimeout set_timers set_currentIndexRef trace].
    rewrite (proj2 (proj2 (proj2 (proj2 (proj2 (proj2
               (call_frame (onScrollEnd p)
                  (CallOnScrollEnd (data_at p index) index) s))))))).
    apply Forall_app. split; [exact W|].
    destruct (onScrollEnd p); [|constructor].
    constructor; [|constructor]. cbn [wellFormed].
    destruct (data_at_in_range p R) as [item Hitem].
    repeat split; try lia. rewrite Hitem. discriminate.
  - cbn [setTimeout set_timers set_currentIndexRef timers].
    rewrite (proj1 (proj2 (proj2 (proj2 (proj2 (proj2
               (call_frame (onScrollEnd p)
                  (CallOnScrollEnd (data_at p index) index) s))))))).
    apply Forall_app. split; [exact Q|]. constructor; [exact R|constructor].
Qed.

Lemma call_drag_wellFormed (cb : bool) (e : Event N T) (s : State N T) :
  wellFormed p e -> wellFormedState p s -> wellFormedState p (call cb e s).
Proof.
  intros We [W Q]. destruct cb; [|now split]. split; [|exact Q].
  cbn [call emit trace]. apply Forall_app. split; [exact W|].
  constructor; [exact We|constructor].
Qed.

Lemma handle_wellFormed (i : Input N) (s : State N T) :
  wellFormedState p s -> wellFormedState p (handle p i s).
Proof.
  intro P. destruct i as [x| | |index|]; cbn [handle].
  - exact P.
  - unfold handleOnScrollBeginDrag.
    apply (call_drag_wellFormed (onScrollBeginDrag p) CallOnScrollBeginDrag)
      in P; [exact P | exact I].
  - apply (call_drag_wellFormed (onScrollEndDrag p) CallOnScrollEndDrag)
      in P; [| exact I].
    destruct (handleOnScrollEndDrag_cases p s) as [E|(index & _ & E)];
      rewrite E; [exact P|].
    apply scrollToIndex_wellFormed. exact P.
  - now apply scrollToIndex_wellFormed.
  - destruct P as [W Q]. rewrite tick_state. split; [|constructor].
    cbn [trace]. apply Forall_app. split; [exact W|].
    destruct (scrollViewRef s); [|constructor].
    apply Forall_map. revert Q. apply Forall_impl.
    intros [index] R. cbn [scrollCommand wellFormed].
    split; [reflexivity|]. exists index. split; [exact R | reflexivity].
Qed.

Lemma handle_idle (i : Input N) (s : State N T) :
  dataLength p = 0%Z -> idle p s -> idle p (handle p i s).
Proof.
  intros L P.
  assert (Z : forall index s0, scrollToIndex p index s0 = s0)
    by (intros; apply scrollToIndex_out_of_range; lia).
  assert (D : forall cb e, settled [e] = [] -> commanded [e] = [] ->
                idle p (call cb e s)).
  { intros cb e Se Ce. destruct P as (C & Q & S & K).
    destruct cb; [|now repeat split].
    repeat split; try assumption; cbn [call emit trace].
    - now rewrite settled_app, S, Se.
    - now rewrite commanded_app, K, Ce. }
  destruct i as [x| | |index|]; cbn [handle].
  - exact P.
  - unfold handleOnScrollBeginDrag.
    exact (D (onScrollBeginDrag p) CallOnScrollBeginDrag eq_refl eq_refl).
  - pose proof (D (onScrollEndDrag p) CallOnScrollEndDrag eq_refl eq_refl)
      as P1.
    destruct (handleOnScrollEndDrag_cases p s) as [E|(index & _ & E)];
      rewrite E; [exact P1|].
    rewrite Z. exact P1.
  - now rewrite Z.
  - destruct P as (C & Q & S & K). rewrite tick_state.
    repeat split; cbn [currentIndexRef timers trace]; try assumption.
    + rewrite Q. destruct (scrollViewRef s); now rewrite app_nil_r.
    + rewrite Q. destruct (scrollViewRef s); now rewrite app_nil_r.
Qed.

End Traces.

(** X12: when an [onScrollEnd] callback is supplied, after every sequence
    of inputs since the first render each call of [onScrollEnd] is matched
    by one scroll, in the same order: the offsets of the settled indices
    are the offsets sent to the list followed by those still queued. *)
Theorem every_settle_has_its_scroll
    (N : Type) (HN : Number N) (T : Type)
    (p : Props N T) (inputs : list (Input N)) :
  onScrollEnd p = true ->
  map (getItemOffset p) (settled (trace (run p inputs (mount p))))
  = commanded (trace (run p inputs (mount p)))
    ++ map (fun t => getItemOffset p (timerIndex t))
         (timers (run p inputs (mount p))).
Proof.
  intro Hcb.
  apply (run_invariant p (paired p)).
  - intros i s. now apply handle_paired.
  - split; reflexivity.
Qed.

Lemma every_settle_has_its_scroll_witness :
  map (getItemOffset exampleQ)
    (settled (trace (run exampleQ
                       [ScrollToIndex 3; TimerTurn; ScrollToIndex 1]
                       (mount exampleQ))))
  = commanded (trace (run exampleQ
                        [ScrollToIndex 3; TimerTurn; ScrollToIndex 1]
                        (mount exampleQ)))
    ++ map (fun t => getItemOffset exampleQ (timerIndex t))
         (timers (run exampleQ
                    [ScrollToIndex 3; TimerTurn; ScrollToIndex 1]
                    (mount exampleQ))).
Proof.
  apply (@every_settle_has_its_scroll Q _ nat exampleQ). reflexivity.
Defined.

(** X13: after every sequence of inputs since the first render, each call
    of [onScrollEnd] in the trace carries an index of the data and the
    item at that index, never [undefined], and each scroll sent to the
    list is animated and goes to the offset of an index of the data. *)
Theorem trace_is_wellFormed
    (N : Type) (HN : Number N) (T : Type)
    (p : Props N T) (inputs : list (Input N)) :
  Forall (wellFormed p) (trace (run p inputs (mount p))).
Proof.
  apply (run_invariant p (wellFormedState p)).
  - intros i s. apply handle_wellFormed.
  - split; constructor.
Qed.

(** X14: with empty or missing data, after every sequence of inputs since
    the first render the current index is still the initial index,
    [onScrollEnd] has not been called and no scroll has been sent or
    queued. *)
Theorem empty_data_stays_idle
    (N : Type) (HN : Number N) (T : Type)
    (p : Props N T) (inputs : list (Input N)) :
  dataLength p = 0%Z ->
  currentIndexRef (run p inputs (mount p)) = initialIndex p
  /\ timers (run p inputs (mount p)) = []
  /\ settled (trace (run p inputs (mount p))) = []
  /\ commanded (trace (run p inputs (mount p))) = [].
Proof.
  intro L.
  apply (run_invariant p (idle p)).
  - intros i s. now apply handle_idle.
  - repeat split.
Qed.

Lemma empty_data_stays_idle_witness :
  currentIndexRef
    (run (carousel (@nil nat) 300 270 10 0.8)
       [OnScrollBeginDrag; OnScroll 50%Q; OnScrollEndDrag; ScrollToIndex 0;
        TimerTurn]
       (mount (carousel (@nil nat) 300 270 10 0.8)))
  = initialIndex (carousel (@nil nat) 300 270 10 0.8)
  /\ timers
       (run (carousel (@nil nat) 300 270 10 0.8)
          [OnScrollBeginDrag; OnScroll 50%Q; OnScrollEndDrag;
           ScrollToIndex 0; TimerTurn]
          (mount (carousel (@nil nat) 300 270 10 0.8))) = []
  /\ settled
       (trace
          (run (carousel (@nil nat) 300 270 10 0.8)
             [OnScrollBeginDrag; OnScroll 50%Q; OnScrollEndDrag;
              ScrollToIndex 0; TimerTurn]
             (mount (carousel (@nil nat) 300 270 10 0.8)))) = []
  /\ commanded
       (trace
          (run (carousel (@nil nat) 300 270 10 0.8)
             [OnScrollBeginDrag; OnScroll 50%Q; OnScrollEndDrag;
              ScrollToIndex 0; TimerTurn]
             (mount (carousel (@nil nat) 300 270 10 0.8)))) = [].
Proof.
  apply (@empty_data_stays_idle Q _ nat (carousel (@nil nat) 300 270 10 0.8)).
  reflexivity.
Defined.

(** X15: a timer turn empties the queue and sends one animated scroll per
    queued request, in the order of the requests, when the list is
    mounted, and none when it is not; a second turn right after it
    changes nothing. *)
Theorem tick_flushes_the_queue
    (N : Type) (HN : Number N) (T : Type) (p : Props N T) (s : State N T) :
  timers (tick p s) = []
  /\ currentIndexRef (tick p s) = currentIndexRef s
  /\ trace (tick p s)
     = trace s ++ (if scrollViewRef s
                   then map (fun t => ScrollToOffset
                                        (getItemOffset p (timerIndex t)) true)
                          (timers s)
                   else [])
  /\ tick p (tick p s) = tick p s.
Proof.
  split; [now rewrite tick_state|].
  split; [now rewrite tick_state|].
  split.
  - rewrite tick_state. cbn [trace]. destruct (scrollViewRef s); [|reflexivity].
    f_equal. apply map_ext. now intros [index].
  - rewrite (tick_state p (tick p s)). rewrite tick_state at 7.
    rewrite !tick_state. cbn. f_equal.
    destruct (scrollViewRef s); now rewrite app_nil_r.
Qed.

(** * Drags *)

Lemma Qltb_ge (x y : Q) : Qltb x y = false <-> y <= x.
Proof.
  unfold Qltb. rewrite negb_false_iff. apply Qle_bool_iff.
Qed.

Lemma Qabs_zero_distance (x : Q) : Qabs (x - x) == 0.
Proof.
  assert (E : x - x == 0) by ring. rewrite E. reflexivity.
Qed.

(** X16: a drag of at least [minScrollDistance] backwards at the first
    item, or forwards at the last item, ends with the [onScrollEndDrag]
    callback and the reset of the begin offset only: [onScrollEnd] is not
    called and no scroll is queued, so the list is not sent back to the
    item. *)
Theorem drag_past_the_ends (T : Type) (p : Props Q T) (s : State Q T) :
  0 <= scrollXRef s ->
  minScrollDistance p <= Qabs (scrollXRef s - scrollXBeginRef s) ->
  (currentIndexRef s = 0%Z /\ scrollXRef s - scrollXBeginRef s < 0)
  \/ (currentIndexRef s = (dataLength p - 1)%Z
      /\ 0 <= scrollXRef s - scrollXBeginRef s) ->
  handleOnScrollEndDrag p s
  = set_scrollXBeginRef 0 (call (onScrollEndDrag p) CallOnScrollEndDrag s).
Proof.
  intros Hpos Hfar Hend. rewrite (handleOnScrollEndDrag_decide p s Hpos).
  cbv zeta. apply Qltb_ge in Hfar. rewrite Hfar.
  destruct Hend as [[C D]|[C D]]; rewrite C.
  - apply Qltb_lt in D. rewrite D.
    apply scrollToIndex_out_of_range. lia.
  - apply Qltb_ge in D. rewrite D.
    apply scrollToIndex_out_of_range. lia.
Qed.

Lemma drag_past_the_ends_witness :
  handleOnScrollEndDrag exampleQ (released 0 60 20)
  = set_scrollXBeginRef 0
      (call (onScrollEndDrag exampleQ) CallOnScrollEndDrag
         (released 0 60 20)).
Proof.
  apply (@drag_past_the_ends nat exampleQ (released 0 60 20)).
  - discriminate.
  - vm_compute. discriminate.
  - left. split; reflexivity.
Defined.

(** X17: a drag released at the offset where it began, with no scroll in
    between, snaps back to the current item when [minScrollDistance] is
    positive; when [minScrollDistance] is 0 or less it goes to the next
    item. *)
Theorem stationary_drag (T : Type) (p : Props Q T) (s : State Q T) :
  0 <= scrollXRef s ->
  let began := handleOnScrollBeginDrag p s in
  let deciding :=
    set_scrollXBeginRef 0
      (call (onScrollEndDrag p) CallOnScrollEndDrag began) in
  (0 < minScrollDistance p ->
   handleOnScrollEndDrag p began
   = scrollToIndex p (currentIndexRef s) deciding)
  /\ (minScrollDistance p <= 0 ->
      handleOnScrollEndDrag p began
      = scrollToIndex p (currentIndexRef s + 1) deciding).
Proof.
  intros Hpos began deciding.
  destruct (call_refs s (onScrollBeginDrag p) CallOnScrollBeginDrag)
    as (I & X & _).
  assert (BX : scrollXRef began = scrollXRef s) by exact X.
  assert (BB : scrollXBeginRef began = scrollXRef s) by exact X.
  assert (BI : currentIndexRef began = currentIndexRef s) by exact I.
  assert (Hpos' : 0 <= scrollXRef began) by (rewrite BX; exact Hpos).
  rewrite (handleOnScrollEndDrag_decide p began Hpos'). cbv zeta.
  fold deciding. rewrite BX, BB, BI.
  pose proof (Qabs_zero_distance (scrollXRef s)) as Z.
  split; intro M.
  - assert (A : Qltb (Qabs (scrollXRef s - scrollXRef s))
                  (minScrollDistance p) = true)
      by (apply Qltb_lt; rewrite Z; exact M).
    now rewrite A.
  - assert (A : Qltb (Qabs (scrollXRef s - scrollXRef s))
                  (minScrollDistance p) = false)
      by (apply Qltb_ge; rewrite Z; exact M).
    assert (D : Qltb (scrollXRef s - scrollXRef s) 0 = false)
      by (apply Qltb_ge; lra).
    now rewrite A, D.
Qed.

Lemma stationary_drag_witness :
  handleOnScrollEndDrag exampleQ
    (handleOnScrollBeginDrag exampleQ (released 2 0 40))
  = scrollToIndex exampleQ (currentIndexRef (released (T:=nat) 2 0 40))
      (set_scrollXBeginRef 0
         (call (onScrollEndDrag exampleQ) CallOnScrollEndDrag
            (handleOnScrollBeginDrag exampleQ (released 2 0 40)))).
Proof.
  destruct (@stationary_drag nat exampleQ (released 2 0 40)) as [B _].
  - discriminate.
  - apply B. reflexivity.
Defined.

(** X18: a whole gesture.  After drag begin, a scroll to [b] and drag
    end, the decision depends on [b] minus the offset at drag begin only:
    whatever begin offset an earlier drag left behind plays no part. *)
Theorem gesture_target (T : Type) (p : Props Q T) (b : Q) (s : State Q T) :
  0 <= b ->
  let distance := b - scrollXRef s in
  let deciding :=
    set_scrollXBeginRef 0
      (call (onScrollEndDrag p) CallOnScrollEndDrag
         (handleOnScroll b (handleOnScrollBeginDrag p s))) in
  (Qabs distance < minScrollDistance p ->
   run p [OnScrollBeginDrag; OnScroll b; OnScrollEndDrag] s
   = scrollToIndex p (currentIndexRef s) deciding)
  /\ (minScrollDistance p <= Qabs distance -> distance < 0 ->
      run p [OnScrollBeginDrag; OnScroll b; OnScrollEndDrag] s
      = scrollToIndex p (currentIndexRef s - 1) deciding)
  /\ (minScrollDistance p <= Qabs distance -> 0 <= distance ->
      run p [OnScrollBeginDrag; OnScroll b; OnScrollEndDrag] s
      = scrollToIndex p (currentIndexRef s + 1) deciding).
Proof.
  intros Hb distance deciding.
  destruct (call_refs s (onScrollBeginDrag p) CallOnScrollBeginDrag)
    as (I & X & _).
  set (moved := handleOnScroll b (handleOnScrollBeginDrag p s)) in *.
  assert (MX : scrollXRef moved = b) by reflexivity.
  assert (MB : scrollXBeginRef moved = scrollXRef s) by exact X.
  assert (MI : currentIndexRef moved = currentIndexRef s) by exact I.
  assert (Hpos : 0 <= scrollXRef moved) by (rewrite MX; exact Hb).
  change (run p [OnScrollBeginDrag; OnScroll b; OnScrollEndDrag] s)
    with (handleOnScrollEndDrag p moved).
  rewrite (handleOnScrollEndDrag_decide p moved Hpos). cbv zeta.
  fold deciding. rewrite MX, MB, MI. fold distance.
  repeat split.
  - intro A. apply Qltb_lt in A. now rewrite A.
  - intros A D. apply Qltb_ge in A. apply Qltb_lt in D. now rewrite A, D.
  - intros A D. apply Qltb_ge in A. apply Qltb_ge in D. now rewrite A, D.
Qed.

Lemma gesture_target_witness :
  run exampleQ [OnScrollBeginDrag; OnScroll 300%Q; OnScrollEndDrag]
    (released 1 999 238)
  = scrollToIndex exampleQ (currentIndexRef (released (T:=nat) 1 999 238) + 1)
      (set_scrollXBeginRef 0
         (call (onScrollEndDrag exampleQ) CallOnScrollEndDrag
            (handleOnScroll 300
               (handleOnScrollBeginDrag exampleQ (released 1 999 238))))).
Proof.
  destruct (@gesture_target nat exampleQ 300 (released 1 999 238))
    as (_ & _ & F).
  - discriminate.
  - apply F.
    + vm_compute. discriminate.
    + vm_compute. discriminate.
Defined.
